(** * DiaGuru: the interval scheduler of [diaguru/scheduler.py]

    A shallow embedding of the [Task] dataclass and of the [Scheduler] class
    over an explicit object store, and the properties of the task registry
    proved about it.

    Python objects are mutable and are handled through references: a
    [Scheduler] instance holds, in its attribute [_tasks], a reference to a
    list object, whose cells hold references to [Task] objects.  The store
    below keeps that sharing visible: [add_task] appends to the list object in
    place, [remove_task] rebinds [_tasks] to a list built by a comprehension,
    and [list_tasks] returns a new list object whose cells are the very same
    [Task] references.

    A [datetime] is an instant on a linear time scale, compared with [<],
    [<=] and [>]; it is embedded as an integer count of its resolution (the
    microsecond) from a fixed origin, all the datetimes of one program being
    naive, or all aware.  The concrete runs below count in minutes, any
    order-preserving unit giving the same comparisons. *)

From stdpp Require Import base numbers option list strings gmap fin_maps.

Local Open Scope Z_scope.

(** ** Data model *)

(** [@dataclass class Task]: [name: str], [start: datetime], [end: datetime].
    The field [end] is spelled [end_], [end] being reserved. *)
Module Task.
Record t : Type := mk { name : string; start : Z; end_ : Z }.
End Task.

(** References into the store. *)
Abbreviation loc := positive.

(** The two kinds of object the scheduler touches: instances of [Task] and
    Python lists, a list being a sequence of references. *)
Inductive obj : Type :=
  | OTask (t : Task.t)
  | OList (cells : list loc).

(** The state of a program that owns one [Scheduler] instance [self]: the
    object store, and the reference held by the attribute [self._tasks]. *)
Record state : Type := State { heap : gmap loc obj; _tasks : loc }.

(** Exceptions raised by the class; both are [ValueError]s and they differ by
    their message. *)
Inductive exn : Type :=
  | ValueError (msg : string).

(** How a call ends: it returns a value, it raises, or it goes [Wrong]: it
    followed a reference to no object or to an object of the wrong kind.  No
    call goes wrong on a registry that the class built itself (see
    [exec_apart] below). *)
Inductive outcome (A : Type) : Type :=
  | Return (a : A)
  | Raise (e : exn)
  | Wrong.
Arguments Return {A} a.
Arguments Raise {A} e.
Arguments Wrong {A}.

(** ** A state and exception monad *)

Definition M (A : Type) : Type := state -> outcome A * state.

Definition ret {A} (a : A) : M A := fun st => (Return a, st).

Definition raise {A} (e : exn) : M A := fun st => (Raise e, st).

Definition bind {A B} (m : M A) (k : A -> M B) : M B :=
  fun st =>
    match m st with
    | (Return a, st') => k a st'
    | (Raise e, st') => (Raise e, st')
    | (Wrong, st') => (Wrong, st')
    end.

Notation "'let!' x ':=' m 'in' k" := (bind m (fun x => k))
  (at level 10, x name, m at level 100, k at level 200).

(** ** Store primitives *)

(** Object creation: the new object gets a reference not in use. *)
Definition alloc (o : obj) : M loc :=
  fun st =>
    let p := fresh (dom (heap st)) in
    (Return p, State (<[p := o]> (heap st)) (_tasks st)).

(** What a reference denotes, as a list object and as a [Task] object. *)
Definition list_at (h : gmap loc obj) (p : loc) : option (list loc) :=
  match h !! p with
  | Some (OList cells) => Some cells
  | _ => None
  end.

Definition task_at (h : gmap loc obj) (p : loc) : option Task.t :=
  match h !! p with
  | Some (OTask t) => Some t
  | _ => None
  end.

(** Dereference a list object. *)
Definition load_list (p : loc) : M (list loc) :=
  fun st =>
    match list_at (heap st) p with
    | Some cells => (Return cells, st)
    | None => (Wrong, st)
    end.

(** Dereference a [Task] object. *)
Definition load_task (p : loc) : M Task.t :=
  fun st =>
    match task_at (heap st) p with
    | Some t => (Return t, st)
    | None => (Wrong, st)
    end.

(** Overwrite the contents of a list object, in place. *)
Definition store_list (p : loc) (cells : list loc) : M unit :=
  fun st =>
    match list_at (heap st) p with
    | Some _ => (Return tt, State (<[p := OList cells]> (heap st)) (_tasks st))
    | None => (Wrong, st)
    end.

(** [self._tasks], read and assigned. *)
Definition get_tasks : M loc := fun st => (Return (_tasks st), st).

Definition set_tasks (p : loc) : M unit :=
  fun st => (Return tt, State (heap st) p).

(** [lst.append(x)]. *)
Definition list_append (p x : loc) : M unit :=
  let! cells := load_list p in
  store_list p (cells ++ [x]).

(** ** The class [Scheduler] *)

(** [__init__]: [self._tasks = []], in a program whose store is [h]. *)
Definition init (h : gmap loc obj) : state :=
  let p := fresh (dom h) in State (<[p := OList []]> h) p.

(** The loop of [has_conflict] over the cells of the list:
    [[
      for task in self._tasks:
          if start < task.end and end > task.start:
              return True
      return False
    ]] *)
Fixpoint has_conflict_loop (start end_ : Z) (cells : list loc) : M bool :=
  match cells with
  | [] => ret false
  | task :: rest =>
      let! t := load_task task in
      if (start <? Task.end_ t) && (end_ >? Task.start t)
      then ret true
      else has_conflict_loop start end_ rest
  end.

Definition has_conflict (start end_ : Z) : M bool :=
  let! lst := get_tasks in
  let! cells := load_list lst in
  has_conflict_loop start end_ cells.

Definition msg_duration : string := "End time must be after start time"%string.
Definition msg_conflict : string := "Task conflicts with existing schedule"%string.

(** [[
      if end <= start:
          raise ValueError("End time must be after start time")
      if self.has_conflict(start, end):
          raise ValueError("Task conflicts with existing schedule")
      self._tasks.append(Task(name=name, start=start, end=end))
    ]] *)
Definition add_task (name : string) (start end_ : Z) : M unit :=
  if end_ <=? start then raise (ValueError msg_duration)
  else
    let! c := has_conflict start end_ in
    if c : bool then raise (ValueError msg_conflict)
    else
      let! lst := get_tasks in
      let! task := alloc (OTask (Task.mk name start end_)) in
      list_append lst task.

(** [return list(self._tasks)]: a new list object with the same cells. *)
Definition list_tasks : M loc :=
  let! lst := get_tasks in
  let! cells := load_list lst in
  alloc (OList cells).

(** The comprehension [[t for t in cells if t.name != name]]. *)
Fixpoint keep_others (name : string) (cells : list loc) : M (list loc) :=
  match cells with
  | [] => ret []
  | t :: rest =>
      let! task := load_task t in
      let! kept := keep_others name rest in
      ret (if bool_decide (Task.name task ≠ name) then t :: kept else kept)
  end.

(** [self._tasks = [t for t in self._tasks if t.name != name]]. *)
Definition remove_task (name : string) : M unit :=
  let! lst := get_tasks in
  let! cells := load_list lst in
  let! kept := keep_others name cells in
  let! new := alloc (OList kept) in
  set_tasks new.

(** ** Reading the registry *)

(** The [Task]s that a sequence of references denotes. *)
Fixpoint tasks_at (h : gmap loc obj) (cells : list loc) : option (list Task.t) :=
  match cells with
  | [] => Some []
  | p :: rest =>
      match task_at h p, tasks_at h rest with
      | Some t, Some ts => Some (t :: ts)
      | _, _ => None
      end
  end.

(** The sequence of tasks held by the list object at [p]. *)
Definition contents (h : gmap loc obj) (p : loc) : option (list Task.t) :=
  match list_at h p with
  | Some cells => tasks_at h cells
  | None => None
  end.

(** The registry's task sequence: what [self._tasks] holds, in order.  It is
    defined exactly on the states in which [self._tasks] is a list of
    [Task]s. *)
Definition tasks (st : state) : option (list Task.t) :=
  contents (heap st) (_tasks st).

(** The test of the loop of [has_conflict], on a task. *)
Definition conflictb (start end_ : Z) (t : Task.t) : bool :=
  (start <? Task.end_ t) && (end_ >? Task.start t).

(** Half-open intervals [[s1, e1)] and [[s2, e2)] overlap. *)
Definition overlap (s1 e1 s2 e2 : Z) : Prop := s1 < e2 ∧ s2 < e1.

Definition tasks_overlap (a b : Task.t) : Prop :=
  overlap (Task.start a) (Task.end_ a) (Task.start b) (Task.end_ b).

(** Sequences of calls of the three operations of the invariant. *)
Inductive op : Type :=
  | Add (name : string) (start end_ : Z)
  | Remove (name : string)
  | HasConflict (start end_ : Z).

(** The state a call leaves, whether it returns or raises. *)
Definition exec (st : state) (o : op) : state :=
  match o with
  | Add name start end_ => snd (add_task name start end_ st)
  | Remove name => snd (remove_task name st)
  | HasConflict start end_ => snd (has_conflict start end_ st)
  end.

Definition run (ops : list op) (st : state) : state := fold_left exec ops st.

(** No task of the sequence overlaps a later one. *)
Fixpoint apart (ts : list Task.t) : Prop :=
  match ts with
  | [] => True
  | t :: rest => Forall (λ u, ¬ tasks_overlap t u) rest ∧ apart rest
  end.

(** [task.end = v], an assignment that a caller holding a [Task] can make:
    the dataclass is not frozen.  No method of [Scheduler] does it. *)
Definition set_end (p : loc) (v : Z) : M unit :=
  fun st =>
    match task_at (heap st) p with
    | Some t =>
        (Return tt,
         State (<[p := OTask (Task.mk (Task.name t) (Task.start t) v)]> (heap st))
               (_tasks st))
    | None => (Wrong, st)
    end.

(** ** Concrete registries *)

(** Times of 2024-05-01, counted in minutes from midnight. *)
Definition standup : Task.t := Task.mk "Standup" 540 555.
Definition review : Task.t := Task.mk "Review" 600 660.
Definition lunch : Task.t := Task.mk "Lunch" 720 780.

(** Standup 09:00-09:15, then Review 10:00-11:00. *)
Definition morning : state :=
  run [Add "Standup" 540 555; Add "Review" 600 660] (init ∅).

(** Three tasks added out of chronological order. *)
Definition day : state :=
  run [Add "Lunch" 720 780; Add "Standup" 540 555; Add "Review" 600 660] (init ∅).

(** ** The tests of [tests/test_scheduler.py] *)





(** ** The script: the [__main__] block *)

(** The [Namespace] that [parser.parse_args()] returns: [command], and the
    three optional positionals ([nargs="?"]), [None] when absent. *)
Module Args.
Record t : Type :=
  mk { command : string; name : option string;
       start : option string; end_ : option string }.
End Args.

(** What [datetime.fromisoformat] does with a string: it raises, or it
    returns a naive or an aware datetime, given here by its instant. *)
Inductive iso : Type :=
  | Invalid (e : exn)
  | Naive (t : Z)
  | Aware (t : Z).

(** How the process ends: normally; by [parser.error(msg)], which exits with
    the usage message; by an exception that nothing catches.  A [TypeError]
    is what [add_task]'s first comparison, [end <= start], raises on a naive
    and an aware datetime.  [Stuck] stands for a call gone [Wrong]. *)
Inductive ending : Type :=
  | Finished
  | UsageError (msg : string)
  | Uncaught (e : exn)
  | UncaughtTypeError
  | Stuck.

(** The truth value of an optional string: [None] and [""] are false. *)
Definition truthy (o : option string) : bool :=
  match o with
  | Some s => negb (bool_decide (s = ""%string))
  | None => false
  end.

Section script.
(** The two library functions the script calls on datetimes:
    [datetime.fromisoformat] and [str]. *)
Variable fromisoformat : string → iso.
Variable str : Z → string.

(** [[
      for task in sched.list_tasks():
          print(f"{task.name}: {task.start} -> {task.end}")
    ]]
    over the cells of the returned list; the lines printed. *)
Fixpoint print_tasks (cells : list loc) : M (list string) :=
  match cells with
  | [] => ret []
  | task :: rest =>
      let! t := load_task task in
      let! out := print_tasks rest in
      ret ((Task.name t +:+ ": " +:+ str (Task.start t) +:+ " -> "
            +:+ str (Task.end_ t))%string :: out)
  end.

(** The script after [args = parser.parse_args()], in a process whose store
    is [h]: the lines printed on the standard output and how the process
    ends. *)
Definition main (args : Args.t) (h : gmap loc obj) : list string * ending :=
  let sched := init h in
  if bool_decide (Args.command args = "add"%string) then
    if negb (truthy (Args.name args) && truthy (Args.start args)
             && truthy (Args.end_ args))
    then ([], UsageError "add requires name, start and end")
    else
      match Args.name args, Args.start args, Args.end_ args with
      | Some name, Some start, Some end_ =>
          match fromisoformat start with
          | Invalid e => ([], Uncaught e)
          | Naive s =>
              match fromisoformat end_ with
              | Invalid e => ([], Uncaught e)
              | Naive e =>
                  match add_task name s e sched with
                  | (Return _, _) => (["Task added"%string], Finished)
                  | (Raise ex, _) => ([], Uncaught ex)
                  | (Wrong, _) => ([], Stuck)
                  end
              | Aware _ => ([], UncaughtTypeError)
              end
          | Aware s =>
              match fromisoformat end_ with
              | Invalid e => ([], Uncaught e)
              | Naive _ => ([], UncaughtTypeError)
              | Aware e =>
                  match add_task name s e sched with
                  | (Return _, _) => (["Task added"%string], Finished)
                  | (Raise ex, _) => ([], Uncaught ex)
                  | (Wrong, _) => ([], Stuck)
                  end
              end
          end
      | _, _, _ => ([], Stuck)
      end
  else if bool_decide (Args.command args = "list"%string) then
    match (let! tasks := list_tasks in
           let! cells := load_list tasks in
           print_tasks cells) sched with
    | (Return out, _) => (out, Finished)
    | (Raise ex, _) => ([], Uncaught ex)
    | (Wrong, _) => ([], Stuck)
    end
  else if bool_decide (Args.command args = "remove"%string) then
    if negb (truthy (Args.name args))
    then ([], UsageError "remove requires task name")
    else
      match Args.name args with
      | Some name =>
          match remove_task name sched with
          | (Return _, _) => (["Task removed"%string], Finished)
          | (Raise ex, _) => ([], Uncaught ex)
          | (Wrong, _) => ([], Stuck)
          end
      | None => ([], Stuck)
      end
  else ([], Finished).
End script.

(** A reader of the one format [YYYY-mm-ddTHH:MM] on 2024-05-01, for the
    concrete runs: minutes from midnight. *)
Definition read_minutes (s : string) : iso :=
  if bool_decide (s = "2024-05-01T09:00"%string) then Naive 540
  else if bool_decide (s = "2024-05-01T09:15"%string) then Naive 555
  else if bool_decide (s = "2024-05-01T09:00+00:00"%string) then Aware 540
  else Invalid (ValueError "Invalid isoformat string").

(** ** The store: frame properties *)

Section store.
Implicit Types (h : gmap loc obj) (p q : loc) (cells : list loc)
  (ts : list Task.t).

Lemma fresh_unused h : h !! fresh (dom h) = None.
Proof. apply not_elem_of_dom, is_fresh. Qed.

Lemma task_at_fresh h : task_at h (fresh (dom h)) = None.
Proof. unfold task_at. now rewrite fresh_unused. Qed.

Lemma list_at_fresh h : list_at h (fresh (dom h)) = None.
Proof. unfold list_at. now rewrite fresh_unused. Qed.

(** A reference denotes a list or a task, not both. *)
Lemma list_at_not_task h p cells : list_at h p = Some cells → task_at h p = None.
Proof. unfold list_at, task_at. destruct (h !! p) as [[]|]; congruence. Qed.

Lemma task_at_insert_ne h p q o : p ≠ q → task_at (<[p := o]> h) q = task_at h q.
Proof. intros Hne. unfold task_at. now rewrite lookup_insert_ne. Qed.

Lemma list_at_insert_ne h p q o : p ≠ q → list_at (<[p := o]> h) q = list_at h q.
Proof. intros Hne. unfold list_at. now rewrite lookup_insert_ne. Qed.

Lemma list_at_insert h p cells : list_at (<[p := OList cells]> h) p = Some cells.
Proof. unfold list_at. now rewrite lookup_insert_eq. Qed.

Lemma task_at_insert h p t : task_at (<[p := OTask t]> h) p = Some t.
Proof. unfold task_at. now rewrite lookup_insert_eq. Qed.

(** Writing at a reference that denotes no task leaves every sequence of
    tasks as it was: this covers a new object and a list updated in
    place. *)
Lemma tasks_at_insert h p o cells ts :
  task_at h p = None →
  tasks_at h cells = Some ts →
  tasks_at (<[p := o]> h) cells = Some ts.
Proof.
  intros Hp. revert ts. induction cells as [|q rest IH]; intros ts; simpl; [easy|].
  destruct (task_at h q) as [t|] eqn:Hq; [|easy].
  destruct (tasks_at h rest) as [ts'|]; [|easy].
  intros [= <-]. rewrite task_at_insert_ne by congruence.
  now rewrite Hq, (IH ts').
Qed.

Lemma tasks_at_app h cells1 cells2 ts1 ts2 :
  tasks_at h cells1 = Some ts1 →
  tasks_at h cells2 = Some ts2 →
  tasks_at h (cells1 ++ cells2) = Some (ts1 ++ ts2).
Proof.
  revert ts1. induction cells1 as [|q rest IH]; intros ts1; simpl.
  - now intros [= <-].
  - destruct (task_at h q) as [t|]; [|easy].
    destruct (tasks_at h rest) as [ts'|]; [|easy].
    intros [= <-] H2. now rewrite (IH ts').
Qed.
End store.

(** ** The operations on a well-formed registry *)

Section operations.
Implicit Types (st : state) (ts : list Task.t) (cells : list loc).

(** The empty registry. *)
Lemma tasks_init (h : gmap loc obj) : tasks (init h) = Some [].
Proof. unfold tasks, contents, init. simpl. now rewrite list_at_insert. Qed.

(** The loop of [has_conflict] reads, and stops at the first hit. *)
Lemma has_conflict_loop_spec start end_ st cells ts :
  tasks_at (heap st) cells = Some ts →
  has_conflict_loop start end_ cells st
  = (Return (existsb (conflictb start end_) ts), st).
Proof.
  revert ts. induction cells as [|p rest IH]; intros ts; simpl.
  - now intros [= <-].
  - unfold bind, load_task.
    destruct (task_at (heap st) p) as [t|]; [|easy].
    destruct (tasks_at (heap st) rest) as [ts'|]; [|easy].
    intros [= <-]. simpl. fold (conflictb start end_ t).
    destruct (conflictb start end_ t); [reflexivity|]. now apply IH.
Qed.

Lemma has_conflict_spec start end_ st ts :
  tasks st = Some ts →
  has_conflict start end_ st
  = (Return (existsb (conflictb start end_) ts), st).
Proof.
  unfold tasks, contents, has_conflict, bind, get_tasks, load_list.
  destruct (list_at (heap st) (_tasks st)) as [cells|]; [|easy].
  apply has_conflict_loop_spec.
Qed.

(** On any store at all, [has_conflict] writes nothing and raises
    nothing. *)
Lemma has_conflict_loop_pure start end_ cells st :
  snd (has_conflict_loop start end_ cells st) = st
  ∧ ∀ e, fst (has_conflict_loop start end_ cells st) ≠ Raise e.
Proof.
  induction cells as [|p rest IH]; simpl; [easy|].
  unfold bind, load_task.
  destruct (task_at (heap st) p) as [t|]; [|easy].
  destruct (_ && _); [easy|]. exact IH.
Qed.

Lemma has_conflict_pure start end_ st :
  snd (has_conflict start end_ st) = st
  ∧ ∀ e, fst (has_conflict start end_ st) ≠ Raise e.
Proof.
  unfold has_conflict, bind, get_tasks, load_list.
  destruct (list_at (heap st) (_tasks st)) as [cells|]; [|easy].
  apply has_conflict_loop_pure.
Qed.

Lemma conflictb_overlap start end_ t :
  conflictb start end_ t = true
  ↔ overlap start end_ (Task.start t) (Task.end_ t).
Proof.
  unfold conflictb, overlap.
  rewrite andb_true_iff, Z.ltb_lt, Z.gtb_ltb, Z.ltb_lt. tauto.
Qed.

Lemma exists_conflict start end_ ts :
  existsb (conflictb start end_) ts = true
  ↔ ∃ t, t ∈ ts ∧ overlap start end_ (Task.start t) (Task.end_ t).
Proof.
  rewrite existsb_exists. split; intros (t & Hin & Ht); exists t.
  - now rewrite list_elem_of_In, <- conflictb_overlap.
  - now rewrite <- list_elem_of_In, conflictb_overlap.
Qed.
End operations.

Section mutators.
Implicit Types (st : state) (ts : list Task.t) (cells : list loc).

(** The three ways [add_task] ends on a registry holding [ts]. *)
Lemma add_task_spec name start end_ st ts :
  tasks st = Some ts →
  ∃ st',
    add_task name start end_ st
    = (if end_ <=? start then (Raise (ValueError msg_duration), st)
       else if existsb (conflictb start end_) ts
            then (Raise (ValueError msg_conflict), st)
            else (Return tt, st'))
    ∧ tasks st' = Some (ts ++ [Task.mk name start end_])
    ∧ _tasks st' = _tasks st.
Proof.
  intros Hts. unfold add_task.
  set (t := Task.mk name start end_).
  set (new := fresh (dom (heap st))).
  pose proof Hts as Hc. unfold tasks, contents in Hc.
  destruct (list_at (heap st) (_tasks st)) as [cells|] eqn:Hl; [|easy].
  assert (Hne : new ≠ _tasks st).
  { intros Heq. unfold new in Heq. rewrite <- Heq, list_at_fresh in Hl. easy. }
  exists (State (<[_tasks st := OList (cells ++ [new])]>
                  (<[new := OTask t]> (heap st))) (_tasks st)).
  split; [|split; [|reflexivity]].
  - destruct (end_ <=? start); [reflexivity|].
    unfold bind at 1. rewrite (has_conflict_spec _ _ _ _ Hts).
    destruct (existsb _ ts); [reflexivity|].
    unfold bind, get_tasks, alloc, list_append, bind, load_list, store_list.
    simpl. fold new. rewrite (list_at_insert_ne _ _ _ _ Hne), Hl.
    simpl. rewrite (list_at_insert_ne _ _ _ _ Hne), Hl. reflexivity.
  - unfold tasks, contents. simpl. rewrite list_at_insert.
    apply tasks_at_insert.
    { rewrite task_at_insert_ne by exact Hne.
      apply (list_at_not_task _ _ _ Hl). }
    apply tasks_at_app.
    + apply tasks_at_insert; [apply task_at_fresh | exact Hc].
    + simpl. now rewrite task_at_insert.
Qed.

(** The comprehension of [remove_task] keeps, in order, the references to
    the tasks with another name. *)
Lemma keep_others_spec name st cells ts :
  tasks_at (heap st) cells = Some ts →
  ∃ kept,
    keep_others name cells st = (Return kept, st)
    ∧ tasks_at (heap st) kept
      = Some (filter (λ t, Task.name t ≠ name) ts).
Proof.
  revert ts. induction cells as [|p rest IH]; intros ts; simpl.
  - intros [= <-]. now exists [].
  - unfold bind, load_task.
    destruct (task_at (heap st) p) as [t|] eqn:Hp; [|easy].
    destruct (tasks_at (heap st) rest) as [ts'|]; [|easy].
    intros [= <-]. destruct (IH ts' eq_refl) as (kept & -> & Hkept).
    eexists. split; [reflexivity|].
    rewrite filter_cons. case_bool_decide.
    + rewrite decide_True by assumption. simpl. now rewrite Hp, Hkept.
    + rewrite decide_False by (intros Hne; now apply Hne). exact Hkept.
Qed.

Lemma remove_task_spec name st ts :
  tasks st = Some ts →
  ∃ st',
    remove_task name st = (Return tt, st')
    ∧ tasks st' = Some (filter (λ t, Task.name t ≠ name) ts).
Proof.
  unfold tasks at 1, contents, remove_task, bind at 1, bind at 1.
  unfold get_tasks, load_list.
  destruct (list_at (heap st) (_tasks st)) as [cells|]; [|easy].
  intros Hc. destruct (keep_others_spec name st cells ts Hc) as (kept & Hk & Hkept).
  unfold bind. rewrite Hk. unfold alloc, set_tasks. simpl.
  eexists. split; [reflexivity|].
  unfold tasks, contents. simpl. rewrite list_at_insert.
  apply tasks_at_insert; [apply task_at_fresh | exact Hkept].
Qed.

(** [list_tasks] returns a reference [r] to a new list object; nothing
    that existed is written. *)
Lemma list_tasks_spec st ts :
  tasks st = Some ts →
  ∃ cells r,
    list_at (heap st) (_tasks st) = Some cells
    ∧ heap st !! r = None
    ∧ list_tasks st
      = (Return r, State (<[r := OList cells]> (heap st)) (_tasks st)).
Proof.
  unfold tasks, contents, list_tasks, bind, get_tasks, load_list, alloc.
  destruct (list_at (heap st) (_tasks st)) as [cells|]; [|easy].
  intros _. exists cells, (fresh (dom (heap st))).
  split; [reflexivity|]. split; [apply fresh_unused | reflexivity].
Qed.

(** Writing a list object other than the registry's, whatever is written,
    leaves the registry's task sequence as it is. *)
Lemma tasks_insert_other st ts r o :
  tasks st = Some ts →
  r ≠ _tasks st →
  task_at (heap st) r = None →
  tasks (State (<[r := o]> (heap st)) (_tasks st)) = Some ts.
Proof.
  unfold tasks, contents. simpl. intros Hts Hne Hr.
  rewrite list_at_insert_ne by exact Hne.
  destruct (list_at (heap st) (_tasks st)) as [cells|]; [|easy].
  now apply tasks_at_insert.
Qed.
End mutators.

(** ** The invariant *)

Section invariant.
Implicit Types (st : state) (ts : list Task.t) (a b t : Task.t).

Lemma tasks_overlap_sym a b : tasks_overlap a b → tasks_overlap b a.
Proof. unfold tasks_overlap, overlap. tauto. Qed.

Lemma apart_lookup ts i j a b :
  apart ts → i ≠ j → ts !! i = Some a → ts !! j = Some b →
  ¬ tasks_overlap a b.
Proof.
  assert (Hlt : ∀ ts i j a b, apart ts → (i < j)%nat →
            ts !! i = Some a → ts !! j = Some b → ¬ tasks_overlap a b).
  { clear. induction ts as [|t rest IH]; intros i j a b Hap Hij Hi Hj; [easy|].
    destruct Hap as [Hhd Htl]. destruct j as [|j]; [lia|].
    destruct i as [|i]; simpl in Hi, Hj.
    - injection Hi as ->. rewrite Forall_forall in Hhd.
      apply Hhd. eapply list_elem_of_lookup_2, Hj.
    - apply (IH i j); [assumption | lia | assumption | assumption]. }
  intros Hap Hne Hi Hj.
  destruct (Nat.lt_ge_cases i j) as [Hij|Hij].
  - now apply (Hlt ts i j).
  - intros Ho%tasks_overlap_sym. revert Ho. apply (Hlt ts j i); [|lia| |]; assumption.
Qed.

Lemma apart_snoc ts t :
  apart ts → Forall (λ u, ¬ tasks_overlap u t) ts → apart (ts ++ [t]).
Proof.
  induction ts as [|u rest IH]; simpl; [easy|].
  intros [Hhd Htl] Hall. apply Forall_cons in Hall as [Hu Hrest].
  split; [|now apply IH].
  apply Forall_app. split; [exact Hhd | now constructor].
Qed.

Lemma apart_filter (P : Task.t → Prop) `{∀ t, Decision (P t)} ts :
  apart ts → apart (filter P ts).
Proof.
  induction ts as [|u rest IH]; simpl; [easy|].
  intros [Hhd Htl]. rewrite filter_cons. destruct (decide (P u)); [|now apply IH].
  simpl. split; [|now apply IH].
  rewrite Forall_forall in *. intros x Hx%list_elem_of_filter.
  apply Hhd, Hx.
Qed.

Lemma no_conflict_apart start end_ name ts :
  existsb (conflictb start end_) ts = false →
  Forall (λ u, ¬ tasks_overlap u (Task.mk name start end_)) ts.
Proof.
  intros Hno. rewrite Forall_forall. intros u Hu Ho%tasks_overlap_sym.
  assert (existsb (conflictb start end_) ts = true); [|congruence].
  apply exists_conflict. now exists u.
Qed.

(** Every call of the three operations keeps the registry well formed and
    its tasks apart. *)
Lemma exec_apart st ts o :
  tasks st = Some ts → apart ts →
  ∃ ts', tasks (exec st o) = Some ts' ∧ apart ts'.
Proof.
  intros Hts Hap. destruct o as [name start end_|name|start end_]; simpl.
  - destruct (add_task_spec name start end_ st ts Hts) as (st' & -> & Hst' & _).
    destruct (end_ <=? start); [now exists ts|].
    destruct (existsb _ ts) eqn:Hno; [now exists ts|].
    simpl. eexists. split; [exact Hst'|].
    apply apart_snoc; [exact Hap | now apply no_conflict_apart].
  - destruct (remove_task_spec name st ts Hts) as (st' & -> & Hst').
    simpl. eexists. split; [exact Hst' | now apply apart_filter].
  - rewrite (has_conflict_spec _ _ _ _ Hts). now exists ts.
Qed.

Lemma run_apart ops st ts :
  tasks st = Some ts → apart ts →
  ∃ ts', tasks (run ops st) = Some ts' ∧ apart ts'.
Proof.
  revert st ts. induction ops as [|o ops IH]; intros st ts Hts Hap; simpl.
  - now exists ts.
  - destruct (exec_apart st ts o Hts Hap) as (ts1 & Hts1 & Hap1).
    apply (IH _ ts1 Hts1 Hap1).
Qed.
End invariant.

(** ** Concrete runs *)

Example tasks_morning : tasks morning = Some [standup; review].
Proof. vm_compute. reflexivity. Qed.

Example tasks_day : tasks day = Some [lunch; standup; review].
Proof. vm_compute. reflexivity. Qed.

(** The scenario of the specification: Standup is added and listed, Overlap
    (09:10-09:30) is refused, Standup is removed and the list is empty. *)
Example scenario :
  let st1 := snd (add_task "Standup" 540 555 (init ∅)) in
  let r2 := add_task "Overlap" 550 570 st1 in
  let st3 := snd (remove_task "Standup" (snd r2)) in
  tasks st1 = Some [standup]
  ∧ fst r2 = Raise (ValueError msg_conflict)
  ∧ tasks st3 = Some [].
Proof. vm_compute. repeat split. Qed.

(** Touching intervals: 09:00-10:00 then 10:00-11:00 are both accepted. *)
Example touching_accepted :
  let r1 := add_task "A" 540 600 (init ∅) in
  let r2 := add_task "B" 600 660 (snd r1) in
  fst r1 = Return tt ∧ fst r2 = Return tt
  ∧ tasks (snd r2) = Some [Task.mk "A" 540 600; Task.mk "B" 600 660].
Proof. vm_compute. repeat split. Qed.

(** Names are compared exactly: another capitalisation is another name. *)
Example remove_case_sensitive :
  tasks (snd (remove_task "standup" morning)) = Some [standup; review].
Proof. vm_compute. reflexivity. Qed.

(** The copy made by [list_tasks] is one level deep: the returned list has
    the registry's own [Task] objects in its cells, so an assignment to a
    field of one of them shows in the registry. *)
Example list_tasks_shares_tasks :
  ∃ r p q st1 st2,
    list_tasks morning = (Return r, st1)
    ∧ list_at (heap st1) r = Some [p; q]
    ∧ set_end p 700 st1 = (Return tt, st2)
    ∧ tasks st2 = Some [Task.mk "Standup" 540 700; review].
Proof. do 5 eexists. vm_compute. repeat split. Qed.

(** ** Properties of the registry *)

Lemma filter_twice {A} (P : A → Prop) `{∀ x, Decision (P x)} (l : list A) :
  filter P (filter P l) = filter P l.
Proof.
  induction l as [|x l IH]; [reflexivity|].
  rewrite filter_cons. destruct (decide (P x)) as [Hx|Hx]; [|exact IH].
  rewrite filter_cons, decide_True by exact Hx. now rewrite IH.
Qed.

(** [add_task] returns when the duration is positive and nothing stored
    overlaps the candidate. *)
Lemma add_task_returns name start end_ st ts :
  tasks st = Some ts →
  start < end_ →
  (∀ t, t ∈ ts → ¬ overlap start end_ (Task.start t) (Task.end_ t)) →
  ∃ st', add_task name start end_ st = (Return tt, st').
Proof.
  intros Hts Hpos Hfree.
  destruct (add_task_spec name start end_ st ts Hts) as (st' & Hadd & _).
  exists st'. rewrite Hadd.
  destruct (Z.leb_spec end_ start) as [Hle|_]; [lia|].
  destruct (existsb _ ts) eqn:Hex; [|reflexivity].
  apply exists_conflict in Hex as (t & Hin & Ho). now destruct (Hfree t Hin).
Qed.

(** C1. In every registry reached from the empty one by calls of [add_task],
    [remove_task] and [has_conflict], in any number and order and whether
    they return or raise, the task sequence is defined and no two tasks at
    different positions have overlapping half-open intervals. *)
Theorem registry_tasks_never_overlap (h : gmap loc obj) (ops : list op) :
  ∃ ts,
    tasks (run ops (init h)) = Some ts
    ∧ ∀ i j a b,
        i ≠ j → ts !! i = Some a → ts !! j = Some b →
        ¬ (Task.start a < Task.end_ b ∧ Task.start b < Task.end_ a).
Proof.
  destruct (run_apart ops (init h) [] (tasks_init h) I) as (ts & Hts & Hap).
  exists ts. split; [exact Hts|].
  intros i j a b Hne Hi Hj. exact (apart_lookup ts i j a b Hap Hne Hi Hj).
Qed.

Lemma registry_tasks_never_overlap_witness :
  ∃ ts,
    tasks (run [Add "Standup" 540 555; Add "Overlap" 550 570; HasConflict 0 1000;
                Add "Review" 600 660; Remove "Standup"; Add "Early" 530 600]
               (init ∅)) = Some ts
    ∧ ∀ i j a b,
        i ≠ j → ts !! i = Some a → ts !! j = Some b →
        ¬ (Task.start a < Task.end_ b ∧ Task.start b < Task.end_ a).
Proof. apply (registry_tasks_never_overlap ∅). Defined.

(** C2. On a registry holding [ts], a candidate with [start < end] is refused
    with the conflict error exactly when some stored task [t] has
    [start < t.end] and [t.start < end]; when every stored task merely
    touches the candidate (its end is the candidate's start, or its start is
    the candidate's end) the call returns; and the conflict error is not the
    duration error. *)
Theorem add_task_conflict_iff st ts name start end_ :
  tasks st = Some ts →
  start < end_ →
  (fst (add_task name start end_ st) = Raise (ValueError msg_conflict)
   ↔ ∃ t, t ∈ ts ∧ start < Task.end_ t ∧ Task.start t < end_)
  ∧ ((∀ t, t ∈ ts → Task.end_ t = start ∨ Task.start t = end_) →
     fst (add_task name start end_ st) = Return tt)
  ∧ ValueError msg_conflict ≠ ValueError msg_duration.
Proof.
  intros Hts Hpos.
  destruct (add_task_spec name start end_ st ts Hts) as (st' & Hadd & _).
  rewrite Hadd. destruct (Z.leb_spec end_ start) as [Hle|_]; [lia|].
  split; [|split].
  - rewrite <- (exists_conflict start end_ ts).
    destruct (existsb _ ts); simpl; split; congruence.
  - intros Htouch. destruct (existsb _ ts) eqn:Hex; [|reflexivity].
    apply exists_conflict in Hex as (t & Hin & Hs & He).
    destruct (Htouch t Hin); lia.
  - discriminate.
Qed.

Lemma add_task_conflict_iff_witness :
  (fst (add_task "Overlap" 550 570 morning) = Raise (ValueError msg_conflict)
   ↔ ∃ t, t ∈ [standup; review] ∧ 550 < Task.end_ t ∧ Task.start t < 570)
  ∧ ((∀ t, t ∈ [standup; review] → Task.end_ t = 550 ∨ Task.start t = 570) →
     fst (add_task "Overlap" 550 570 morning) = Return tt)
  ∧ ValueError msg_conflict ≠ ValueError msg_duration.
Proof.
  apply (add_task_conflict_iff morning [standup; review] "Overlap" 550 570).
  - vm_compute. reflexivity.
  - lia.
Defined.

(** C3. On a registry holding [ts], [has_conflict start end] returns a
    boolean that is true exactly when some stored task [t] has
    [start < t.end] and [end > t.start], and it leaves the state as it
    was. *)
Theorem has_conflict_iff st ts start end_ :
  tasks st = Some ts →
  ∃ b,
    has_conflict start end_ st = (Return b, st)
    ∧ (b = true ↔ ∃ t, t ∈ ts ∧ start < Task.end_ t ∧ end_ > Task.start t).
Proof.
  intros Hts. exists (existsb (conflictb start end_) ts).
  split; [exact (has_conflict_spec start end_ st ts Hts)|].
  rewrite exists_conflict. unfold overlap.
  split; intros (t & Hin & Hs & He); exists t; (split; [exact Hin | lia]).
Qed.

Lemma has_conflict_iff_witness :
  ∃ b,
    has_conflict 550 610 morning = (Return b, morning)
    ∧ (b = true ↔ ∃ t, t ∈ [standup; review] ∧ 550 < Task.end_ t ∧ 610 > Task.start t).
Proof.
  apply (has_conflict_iff morning [standup; review] 550 610).
  vm_compute. reflexivity.
Defined.

(** C4. Whatever the state, and so whether or not a stored task overlaps the
    candidate, [add_task] with [end <= start] raises the duration error. *)
Theorem add_task_nonpositive st name start end_ :
  end_ ≤ start →
  add_task name start end_ st = (Raise (ValueError msg_duration), st).
Proof.
  intros Hle. unfold add_task.
  destruct (Z.leb_spec end_ start) as [_|Hlt]; [reflexivity | lia].
Qed.

Lemma add_task_nonpositive_witness :
  add_task "Backwards" 550 545 morning = (Raise (ValueError msg_duration), morning).
Proof. apply (add_task_nonpositive morning "Backwards" 550 545). lia. Defined.

(** C5. A call of [add_task] that raises, on any state, raises one of the
    two errors and leaves the whole state, hence the task sequence, exactly
    as it was. *)
Theorem add_task_failure_no_effect st name start end_ e st' :
  add_task name start end_ st = (Raise e, st') →
  (e = ValueError msg_duration ∨ e = ValueError msg_conflict)
  ∧ st' = st
  ∧ tasks st' = tasks st.
Proof.
  unfold add_task. destruct (end_ <=? start).
  { intros [= <- <-]. auto. }
  unfold bind at 1.
  destruct (has_conflict_pure start end_ st) as [Hst Hnr].
  destruct (has_conflict start end_ st) as [[[|]| |] st1]; simpl in Hst; subst st1.
  - intros [= <- <-]. auto.
  - unfold bind, get_tasks, alloc, list_append, bind, load_list, store_list. simpl.
    destruct (list_at _ _); [|discriminate]. simpl.
    destruct (list_at _ _); discriminate.
  - now destruct (Hnr e0).
  - discriminate.
Qed.

Lemma add_task_failure_no_effect_witness :
  add_task "Overlap" 550 570 morning = (Raise (ValueError msg_conflict), morning)
  ∧ (ValueError msg_conflict = ValueError msg_duration
     ∨ ValueError msg_conflict = ValueError msg_conflict)
  ∧ morning = morning
  ∧ tasks morning = tasks morning.
Proof.
  assert (H : add_task "Overlap" 550 570 morning
              = (Raise (ValueError msg_conflict), morning))
    by (vm_compute; reflexivity).
  split; [exact H|].
  exact (add_task_failure_no_effect morning "Overlap" 550 570 _ _ H).
Defined.

(** C6. When [add_task name start end] returns on a registry holding [ts],
    the registry holds [ts] followed by the task [(name, start, end)]; and
    if the registry was empty, [list_tasks] then returns a list holding
    exactly that task. *)
Theorem add_task_appends st ts name start end_ st' :
  tasks st = Some ts →
  add_task name start end_ st = (Return tt, st') →
  tasks st' = Some (ts ++ [Task.mk name start end_])
  ∧ (ts = [] →
     ∃ r st'',
       list_tasks st' = (Return r, st'')
       ∧ contents (heap st'') r = Some [Task.mk name start end_]).
Proof.
  intros Hts Hret.
  destruct (add_task_spec name start end_ st ts Hts) as (st1 & Hadd & Hst1 & _).
  rewrite Hret in Hadd.
  destruct (end_ <=? start); [discriminate|].
  destruct (existsb _ ts); [discriminate|].
  injection Hadd as <-. split; [exact Hst1|].
  intros ->. simpl in Hst1.
  destruct (list_tasks_spec st' _ Hst1) as (cells & r & Hcells & Hnew & ->).
  exists r. eexists. split; [reflexivity|].
  unfold tasks, contents in Hst1. rewrite Hcells in Hst1.
  unfold contents. simpl. rewrite list_at_insert.
  apply tasks_at_insert; [|exact Hst1].
  unfold task_at. now rewrite Hnew.
Qed.

Lemma add_task_appends_witness :
  tasks (snd (add_task "Standup" 540 555 (init ∅))) = Some ([] ++ [standup])
  ∧ (@nil Task.t = [] →
     ∃ r st'',
       list_tasks (snd (add_task "Standup" 540 555 (init ∅))) = (Return r, st'')
       ∧ contents (heap st'') r = Some [standup]).
Proof.
  apply (add_task_appends (init ∅) [] "Standup" 540 555).
  - vm_compute. reflexivity.
  - vm_compute. reflexivity.
Defined.

(** C7. On a registry holding [ts], [remove_task name] returns, and the
    registry then holds the tasks of [ts] whose name is not [name], in their
    order in [ts]; so with [ts = [a; b; c]], [name] the name of [b] and the
    names of [a] and [c] different from it, [list_tasks] then returns a list
    holding [[a; c]]. *)
Theorem remove_task_filters st ts name :
  tasks st = Some ts →
  ∃ st',
    remove_task name st = (Return tt, st')
    ∧ tasks st' = Some (filter (λ t, Task.name t ≠ name) ts)
    ∧ ∀ a b c,
        ts = [a; b; c] → Task.name b = name →
        Task.name a ≠ name → Task.name c ≠ name →
        ∃ r st'',
          list_tasks st' = (Return r, st'')
          ∧ contents (heap st'') r = Some [a; c].
Proof.
  intros Hts.
  destruct (remove_task_spec name st ts Hts) as (st' & Hrem & Hst').
  exists st'. split; [exact Hrem|]. split; [exact Hst'|].
  intros a b c -> Hb Ha Hc.
  rewrite !filter_cons, filter_nil in Hst'.
  rewrite (decide_True _ _ Ha), (decide_True _ _ Hc) in Hst'.
  rewrite decide_False in Hst' by (intros Hne; now apply Hne).
  destruct (list_tasks_spec st' _ Hst') as (cells & r & Hcells & Hnew & ->).
  exists r. eexists. split; [reflexivity|].
  unfold tasks, contents in Hst'. rewrite Hcells in Hst'.
  unfold contents. simpl. rewrite list_at_insert.
  apply tasks_at_insert; [|exact Hst'].
  unfold task_at. now rewrite Hnew.
Qed.

Lemma remove_task_filters_witness :
  ∃ st',
    remove_task "Standup" day = (Return tt, st')
    ∧ tasks st'
      = Some (filter (λ t, Task.name t ≠ "Standup"%string) [lunch; standup; review])
    ∧ ∀ a b c,
        [lunch; standup; review] = [a; b; c] → Task.name b = "Standup"%string →
        Task.name a ≠ "Standup"%string → Task.name c ≠ "Standup"%string →
        ∃ r st'',
          list_tasks st' = (Return r, st'')
          ∧ contents (heap st'') r = Some [a; c].
Proof.
  apply (remove_task_filters day [lunch; standup; review] "Standup").
  vm_compute. reflexivity.
Defined.

(** C8. On a registry holding [ts], [list_tasks] returns a reference [r] to
    a list object that did not exist before, is not the registry's own list,
    holds [ts] and has the very cells of the registry's list; the call writes
    no object that existed and does not rebind [_tasks]; and whatever is then
    written into the returned list, no other object changes, [_tasks] is
    not rebound and the registry still holds [ts]. *)
Theorem list_tasks_snapshot st ts :
  tasks st = Some ts →
  ∃ r st',
    list_tasks st = (Return r, st')
    ∧ contents (heap st') r = Some ts
    ∧ list_at (heap st') r = list_at (heap st) (_tasks st)
    ∧ heap st !! r = None
    ∧ r ≠ _tasks st
    ∧ _tasks st' = _tasks st
    ∧ (∀ p, p ≠ r → heap st' !! p = heap st !! p)
    ∧ tasks st' = Some ts
    ∧ ∀ cells,
        ∃ st'',
          store_list r cells st' = (Return tt, st'')
          ∧ _tasks st'' = _tasks st
          ∧ (∀ p, p ≠ r → heap st'' !! p = heap st !! p)
          ∧ tasks st'' = Some ts.
Proof.
  intros Hts.
  destruct (list_tasks_spec st ts Hts) as (own & r & Hown & Hnew & Hcall).
  assert (Hne : r ≠ _tasks st).
  { intros ->. unfold list_at in Hown. now rewrite Hnew in Hown. }
  assert (Hrt : task_at (heap st) r = None).
  { unfold task_at. now rewrite Hnew. }
  assert (Hown_ts : tasks_at (heap st) own = Some ts).
  { unfold tasks, contents in Hts. now rewrite Hown in Hts. }
  exists r. eexists. split; [exact Hcall|]. simpl.
  repeat split.
  - unfold contents. rewrite list_at_insert. now apply tasks_at_insert.
  - now rewrite list_at_insert.
  - exact Hnew.
  - exact Hne.
  - intros p Hp. now apply lookup_insert_ne.
  - now apply tasks_insert_other.
  - intros cells. unfold store_list. simpl. rewrite list_at_insert.
    eexists. split; [reflexivity|]. simpl. rewrite insert_insert_eq.
    repeat split.
    + intros p Hp. now apply lookup_insert_ne.
    + now apply tasks_insert_other.
Qed.

Lemma list_tasks_snapshot_witness :
  ∃ r st',
    list_tasks morning = (Return r, st')
    ∧ contents (heap st') r = Some [standup; review]
    ∧ list_at (heap st') r = list_at (heap morning) (_tasks morning)
    ∧ heap morning !! r = None
    ∧ r ≠ _tasks morning
    ∧ _tasks st' = _tasks morning
    ∧ (∀ p, p ≠ r → heap st' !! p = heap morning !! p)
    ∧ tasks st' = Some [standup; review]
    ∧ ∀ cells,
        ∃ st'',
          store_list r cells st' = (Return tt, st'')
          ∧ _tasks st'' = _tasks morning
          ∧ (∀ p, p ≠ r → heap st'' !! p = heap morning !! p)
          ∧ tasks st'' = Some [standup; review].
Proof.
  apply (list_tasks_snapshot morning [standup; review]).
  vm_compute. reflexivity.
Defined.

(** C9. On a registry holding [ts], two calls of [remove_task name] in a row
    both return and leave the registry holding what the first call left. *)
Theorem remove_task_idempotent st ts name :
  tasks st = Some ts →
  ∃ st1 st2,
    remove_task name st = (Return tt, st1)
    ∧ remove_task name st1 = (Return tt, st2)
    ∧ tasks st2 = tasks st1.
Proof.
  intros Hts.
  destruct (remove_task_spec name st ts Hts) as (st1 & Hrem1 & Hst1).
  destruct (remove_task_spec name st1 _ Hst1) as (st2 & Hrem2 & Hst2).
  exists st1, st2. split; [exact Hrem1|]. split; [exact Hrem2|].
  now rewrite Hst2, Hst1, filter_twice.
Qed.

Lemma remove_task_idempotent_witness :
  ∃ st1 st2,
    remove_task "Standup" day = (Return tt, st1)
    ∧ remove_task "Standup" st1 = (Return tt, st2)
    ∧ tasks st2 = tasks st1.
Proof.
  apply (remove_task_idempotent day [lunch; standup; review] "Standup").
  vm_compute. reflexivity.
Defined.

(** C10. [has_conflict] puts no condition on its interval: asked about the
    empty interval at an instant strictly inside a stored task, it returns
    true. *)
Theorem has_conflict_instant st ts t start :
  tasks st = Some ts →
  t ∈ ts →
  Task.start t < start < Task.end_ t →
  has_conflict start start st = (Return true, st).
Proof.
  intros Hts Hin [Hs He].
  rewrite (has_conflict_spec start start st ts Hts).
  assert (existsb (conflictb start start) ts = true) as ->; [|reflexivity].
  apply exists_conflict. exists t. unfold overlap. auto.
Qed.

Lemma has_conflict_instant_witness :
  has_conflict 545 545 morning = (Return true, morning).
Proof.
  apply (has_conflict_instant morning [standup; review] standup 545).
  - vm_compute. reflexivity.
  - apply list_elem_of_here.
  - vm_compute. split; reflexivity.
Defined.

(** ** Further properties: what the registry keeps *)

Section keeps.
Implicit Types (st : state) (ts : list Task.t) (P : list Task.t → Prop).

(** A property of task sequences that holds when an accepted task is appended
    and when the tasks of one name are deleted holds after any calls. *)
Lemma run_keeps P ops st ts :
  (∀ us name start end_,
     P us → start < end_ → existsb (conflictb start end_) us = false →
     P (us ++ [Task.mk name start end_])) →
  (∀ us name, P us → P (filter (λ t, Task.name t ≠ name) us)) →
  tasks st = Some ts → P ts →
  ∃ ts', tasks (run ops st) = Some ts' ∧ P ts'.
Proof.
  intros Hadd Hrem. revert st ts.
  induction ops as [|o ops IH]; intros st ts Hts HP; simpl; [now exists ts|].
  destruct o as [name start end_|name|start end_]; simpl.
  - destruct (add_task_spec name start end_ st ts Hts) as (st' & -> & Hst' & _).
    destruct (Z.leb_spec end_ start) as [_|Hpos]; [now apply (IH st ts)|].
    destruct (existsb _ ts) eqn:Hno; [now apply (IH st ts)|].
    simpl. apply (IH st' _ Hst'). now apply Hadd.
  - destruct (remove_task_spec name st ts Hts) as (st' & -> & Hst').
    simpl. apply (IH st' _ Hst'). now apply Hrem.
  - rewrite (has_conflict_spec _ _ _ _ Hts). simpl. now apply (IH st ts).
Qed.

Lemma filter_fixed {A} (Q : A → Prop) `{∀ x, Decision (Q x)} (l : list A) :
  filter Q l = l ↔ ∀ x, x ∈ l → Q x.
Proof.
  split.
  - intros Heq x Hx. rewrite <- Heq in Hx. now apply list_elem_of_filter in Hx.
  - induction l as [|x l IH]; intros Hall; [reflexivity|].
    rewrite filter_cons, decide_True by (apply Hall; left).
    f_equal. apply IH. intros y Hy. apply Hall. now right.
Qed.

Lemma filter_swap {A} (Q R : A → Prop)
    `{∀ x, Decision (Q x)} `{∀ x, Decision (R x)} (l : list A) :
  filter Q (filter R l) = filter R (filter Q l).
Proof.
  induction l as [|x l IH]; [reflexivity|].
  rewrite !filter_cons.
  destruct (decide (R x)) as [HR|HR]; destruct (decide (Q x)) as [HQ|HQ];
    rewrite ?filter_cons, ?decide_True, ?decide_False by assumption;
    now rewrite IH.
Qed.

Lemma Forall_kept {A} (R Q : A → Prop) `{∀ x, Decision (Q x)} (l : list A) :
  Forall R l → Forall R (filter Q l).
Proof.
  rewrite !Forall_forall. intros Hall x Hx%list_elem_of_filter. now apply Hall.
Qed.

Lemma existsb_filter_false {A} (f : A → bool) (Q : A → Prop)
    `{∀ x, Decision (Q x)} (l : list A) :
  existsb f l = false → existsb f (filter Q l) = false.
Proof.
  induction l as [|x l IH]; [easy|]. simpl.
  intros [Hx Hl]%orb_false_iff. rewrite filter_cons.
  destruct (decide (Q x)); simpl; [rewrite Hx|]; now apply IH.
Qed.
End keeps.

(** X1. In every registry reached from the empty one by calls of [add_task],
    [remove_task] and [has_conflict], every stored task ends strictly after
    it starts. *)
Theorem registry_tasks_positive (h : gmap loc obj) (ops : list op) :
  ∃ ts,
    tasks (run ops (init h)) = Some ts
    ∧ ∀ t, t ∈ ts → Task.start t < Task.end_ t.
Proof.
  destruct (run_keeps (Forall (λ t, Task.start t < Task.end_ t))
              ops (init h) []) as (ts & Hts & Hall).
  - intros us name start end_ Hus Hpos _. apply Forall_app. split; [exact Hus|].
    now repeat constructor.
  - intros us name Hus. now apply Forall_kept.
  - apply tasks_init.
  - constructor.
  - exists ts. split; [exact Hts|]. now apply Forall_forall.
Qed.

Lemma registry_tasks_positive_witness :
  ∃ ts,
    tasks (run [Add "Empty" 540 540; Add "Standup" 540 555; Add "Back" 600 590]
               (init ∅)) = Some ts
    ∧ ∀ t, t ∈ ts → Task.start t < Task.end_ t.
Proof. apply (registry_tasks_positive ∅). Defined.



(** X3. A scheduler just created holds no task; on it [has_conflict] returns
    [False] for every interval, and [add_task] returns exactly when
    [start < end]. *)
Theorem new_scheduler_is_free (h : gmap loc obj) name start end_ :
  tasks (init h) = Some []
  ∧ has_conflict start end_ (init h) = (Return false, init h)
  ∧ (fst (add_task name start end_ (init h)) = Return tt ↔ start < end_).
Proof.
  pose proof (tasks_init h) as Hts.
  split; [exact Hts|]. split; [exact (has_conflict_spec start end_ _ _ Hts)|].
  destruct (add_task_spec name start end_ _ _ Hts) as (st' & -> & _).
  destruct (Z.leb_spec end_ start); simpl; split; intros; (lia || congruence).
Qed.

(** X4. Once [add_task name start end] has returned, the interval is taken:
    [has_conflict start end] returns [True], and adding the same interval
    again, under any name, raises the conflict error and changes nothing. *)
Theorem added_interval_is_taken st ts name start end_ st' :
  tasks st = Some ts →
  add_task name start end_ st = (Return tt, st') →
  has_conflict start end_ st' = (Return true, st')
  ∧ ∀ name',
      add_task name' start end_ st' = (Raise (ValueError msg_conflict), st').
Proof.
  intros Hts Hret.
  destruct (add_task_spec name start end_ st ts Hts) as (st1 & Hadd & Hst1 & _).
  rewrite Hret in Hadd.
  destruct (Z.leb_spec end_ start) as [|Hpos]; [discriminate|].
  destruct (existsb _ ts); [discriminate|]. injection Hadd as <-.
  assert (Hex : existsb (conflictb start end_ ) (ts ++ [Task.mk name start end_]) = true).
  { rewrite existsb_app. apply orb_true_iff. right. simpl.
    unfold conflictb. simpl. rewrite Z.gtb_ltb.
    destruct (Z.ltb_spec start end_); [reflexivity | lia]. }
  split.
  - now rewrite (has_conflict_spec _ _ _ _ Hst1), Hex.
  - intros name'.
    destruct (add_task_spec name' start end_ st' _ Hst1) as (st2 & -> & _).
    rewrite Hex. destruct (Z.leb_spec end_ start); [lia | reflexivity].
Qed.

Lemma added_interval_is_taken_witness :
  has_conflict 700 710 (snd (add_task "Call" 700 710 morning))
  = (Return true, snd (add_task "Call" 700 710 morning))
  ∧ ∀ name',
      add_task name' 700 710 (snd (add_task "Call" 700 710 morning))
      = (Raise (ValueError msg_conflict), snd (add_task "Call" 700 710 morning)).
Proof.
  apply (added_interval_is_taken morning [standup; review] "Call" 700 710).
  - vm_compute. reflexivity.
  - vm_compute. reflexivity.
Defined.

Lemma list_at_insert_task (h : gmap loc obj) (p q : loc) (t : Task.t) :
  list_at (<[p := OTask t]> h) q = if decide (p = q) then None else list_at h q.
Proof.
  unfold list_at. destruct (decide (p = q)) as [->|Hne].
  - now rewrite lookup_insert_eq.
  - now rewrite lookup_insert_ne.
Qed.

Lemma bind_fst_ext {A B} (m : M A) (k1 k2 : A → M B) (st : state) :
  (∀ a s, fst (k1 a s) = fst (k2 a s)) →
  fst (bind m k1 st) = fst (bind m k2 st).
Proof. intros Hk. unfold bind. destruct (m st) as [[a|e|] s]; auto. Qed.

(** X5. Whether [add_task] returns or raises, and which error, does not
    depend on the name: names are never compared by [add_task], so two tasks
    may bear the same name.  This holds on every state. *)
Theorem add_task_ignores_name st name1 name2 start end_ :
  fst (add_task name1 start end_ st) = fst (add_task name2 start end_ st).
Proof.
  unfold add_task. destruct (end_ <=? start); [reflexivity|].
  apply bind_fst_ext. intros [|] st1; [reflexivity|].
  unfold bind, get_tasks, alloc, list_append, bind, load_list, store_list. simpl.
  rewrite !list_at_insert_task.
  destruct (decide (fresh (dom (heap st1)) = _tasks st1)); [reflexivity|].
  destruct (list_at (heap st1) (_tasks st1)); [|reflexivity]. simpl.
  rewrite !list_at_insert_task.
  destruct (decide (fresh (dom (heap st1)) = _tasks st1)); [contradiction|].
  destruct (list_at (heap st1) (_tasks st1)); reflexivity.
Qed.



(** X7. Removing never takes room away: after [remove_task] an interval for
    which [has_conflict] returned [False] still gets [False], and a task that
    [add_task] would have accepted before is accepted after. *)
Theorem remove_task_frees st ts name st' name' start end_ :
  tasks st = Some ts →
  remove_task name st = (Return tt, st') →
  (has_conflict start end_ st = (Return false, st) →
   has_conflict start end_ st' = (Return false, st'))
  ∧ (fst (add_task name' start end_ st) = Return tt →
     fst (add_task name' start end_ st') = Return tt).
Proof.
  intros Hts Hrem.
  destruct (remove_task_spec name st ts Hts) as (st1 & Hrem1 & Hst1).
  rewrite Hrem in Hrem1. injection Hrem1 as <-.
  rewrite (has_conflict_spec _ _ _ _ Hts), (has_conflict_spec _ _ _ _ Hst1).
  destruct (add_task_spec name' start end_ st ts Hts) as (sa & -> & _).
  destruct (add_task_spec name' start end_ st' _ Hst1) as (sb & -> & _).
  split.
  - intros [= Hno]. now rewrite (existsb_filter_false _ _ _ Hno).
  - destruct (end_ <=? start); [easy|].
    destruct (existsb _ ts) eqn:Hno; [easy|].
    now rewrite (existsb_filter_false _ _ _ Hno).
Qed.

Lemma remove_task_frees_witness :
  (has_conflict 700 710 day = (Return false, day) →
   has_conflict 700 710 (snd (remove_task "Standup" day))
   = (Return false, snd (remove_task "Standup" day)))
  ∧ (fst (add_task "Call" 700 710 day) = Return tt →
     fst (add_task "Call" 700 710 (snd (remove_task "Standup" day))) = Return tt).
Proof.
  apply (remove_task_frees day [lunch; standup; review] "Standup").
  - vm_compute. reflexivity.
  - vm_compute. reflexivity.
Defined.

(** X8. [remove_task] undoes [add_task]: after [add_task name start end] has
    returned, [remove_task name] leaves the tasks that were there before
    under another name, hence exactly the previous sequence when no earlier
    task bore that name, and the same [add_task] returns again. *)
Theorem add_then_remove st ts name start end_ st1 st2 :
  tasks st = Some ts →
  add_task name start end_ st = (Return tt, st1) →
  remove_task name st1 = (Return tt, st2) →
  tasks st2 = Some (filter (λ t, Task.name t ≠ name) ts)
  ∧ ((∀ t, t ∈ ts → Task.name t ≠ name) → tasks st2 = Some ts)
  ∧ fst (add_task name start end_ st2) = Return tt.
Proof.
  intros Hts Hadd Hrem.
  destruct (add_task_spec name start end_ st ts Hts) as (sa & Ha & Hsa & _).
  rewrite Hadd in Ha.
  destruct (Z.leb_spec end_ start) as [|Hpos]; [discriminate|].
  destruct (existsb _ ts) eqn:Hno; [discriminate|]. injection Ha as <-.
  destruct (remove_task_spec name st1 _ Hsa) as (sb & Hb & Hsb).
  rewrite Hrem in Hb. injection Hb as <-.
  rewrite filter_app, filter_cons, filter_nil in Hsb.
  rewrite decide_False in Hsb by (intros Hne; now apply Hne).
  rewrite app_nil_r in Hsb.
  split; [exact Hsb|]. split.
  - intros Hall. rewrite Hsb. f_equal. now apply filter_fixed.
  - destruct (add_task_spec name start end_ st2 _ Hsb) as (sc & -> & _).
    destruct (Z.leb_spec end_ start); [lia|].
    now rewrite (existsb_filter_false _ _ _ Hno).
Qed.

Lemma add_then_remove_witness :
  tasks (snd (remove_task "Call" (snd (add_task "Call" 700 710 morning))))
  = Some (filter (λ t, Task.name t ≠ "Call"%string) [standup; review])
  ∧ ((∀ t, t ∈ [standup; review] → Task.name t ≠ "Call"%string) →
     tasks (snd (remove_task "Call" (snd (add_task "Call" 700 710 morning))))
     = Some [standup; review])
  ∧ fst (add_task "Call" 700 710
           (snd (remove_task "Call" (snd (add_task "Call" 700 710 morning)))))
    = Return tt.
Proof.
  apply (add_then_remove morning [standup; review] "Call" 700 710
           (snd (add_task "Call" 700 710 morning))).
  - vm_compute. reflexivity.
  - vm_compute. reflexivity.
  - vm_compute. reflexivity.
Defined.

(** X9. [remove_task name] leaves the task sequence as it was exactly when
    no stored task bears that name. *)
Theorem remove_task_unchanged_iff st ts name :
  tasks st = Some ts →
  ∃ st',
    remove_task name st = (Return tt, st')
    ∧ (tasks st' = Some ts ↔ ∀ t, t ∈ ts → Task.name t ≠ name).
Proof.
  intros Hts.
  destruct (remove_task_spec name st ts Hts) as (st' & Hrem & Hst').
  exists st'. split; [exact Hrem|]. rewrite Hst'.
  rewrite <- (filter_fixed (λ t, Task.name t ≠ name) ts).
  split; [now intros [= ->] | now intros ->].
Qed.

Lemma remove_task_unchanged_iff_witness :
  ∃ st',
    remove_task "Lunch" morning = (Return tt, st')
    ∧ (tasks st' = Some [standup; review]
       ↔ ∀ t, t ∈ [standup; review] → Task.name t ≠ "Lunch"%string).
Proof.
  apply (remove_task_unchanged_iff morning [standup; review] "Lunch").
  vm_compute. reflexivity.
Defined.

(** X10. Removals commute: removing two names in either order leaves the same
    task sequence. *)
Theorem remove_task_commute st ts name1 name2 :
  tasks st = Some ts →
  ∃ s1 s12 s2 s21,
    remove_task name1 st = (Return tt, s1)
    ∧ remove_task name2 s1 = (Return tt, s12)
    ∧ remove_task name2 st = (Return tt, s2)
    ∧ remove_task name1 s2 = (Return tt, s21)
    ∧ tasks s12 = tasks s21.
Proof.
  intros Hts.
  destruct (remove_task_spec name1 st ts Hts) as (s1 & H1 & Hs1).
  destruct (remove_task_spec name2 s1 _ Hs1) as (s12 & H12 & Hs12).
  destruct (remove_task_spec name2 st ts Hts) as (s2 & H2 & Hs2).
  destruct (remove_task_spec name1 s2 _ Hs2) as (s21 & H21 & Hs21).
  exists s1, s12, s2, s21. repeat (split; [assumption|]).
  rewrite Hs12, Hs21. f_equal. apply filter_swap.
Qed.

Lemma remove_task_commute_witness :
  ∃ s1 s12 s2 s21,
    remove_task "Lunch" day = (Return tt, s1)
    ∧ remove_task "Review" s1 = (Return tt, s12)
    ∧ remove_task "Review" day = (Return tt, s2)
    ∧ remove_task "Lunch" s2 = (Return tt, s21)
    ∧ tasks s12 = tasks s21.
Proof.
  apply (remove_task_commute day [lunch; standup; review] "Lunch" "Review").
  vm_compute. reflexivity.
Defined.

(** ** Further properties: what the registry writes *)

Section writes.
Implicit Types (st : state) (ts : list Task.t) (p : loc) (o : obj).

Lemma tasks_at_mono (h h' : gmap loc obj) (cells : list loc) ts :
  (∀ p t, task_at h p = Some t → task_at h' p = Some t) →
  tasks_at h cells = Some ts → tasks_at h' cells = Some ts.
Proof.
  intros Hmono. revert ts. induction cells as [|q rest IH]; intros ts; simpl; [easy|].
  destruct (task_at h q) as [t|] eqn:Hq; [|easy].
  destruct (tasks_at h rest) as [ts'|]; [|easy].
  intros [= <-]. now rewrite (Hmono q t Hq), (IH ts').
Qed.

(** One call writes the registry's own list or new objects, nothing else,
    and binds [_tasks] to its own list or to a new object. *)
Lemma exec_frame st ts op p o :
  tasks st = Some ts →
  heap st !! p = Some o → p ≠ _tasks st →
  heap (exec st op) !! p = Some o ∧ p ≠ _tasks (exec st op).
Proof.
  intros Hts Hp Hne.
  assert (Hfresh : p ≠ fresh (dom (heap st))).
  { intros ->. now rewrite fresh_unused in Hp. }
  destruct op as [name start end_|name|start end_]; simpl.
  - destruct (add_task name start end_ st) as [out st'] eqn:E. simpl.
    unfold add_task in E. destruct (end_ <=? start); [now injection E as <- <-|].
    unfold bind at 1 in E. rewrite (has_conflict_spec _ _ _ _ Hts) in E.
    destruct (existsb _ ts); [now injection E as <- <-|].
    unfold bind, get_tasks, alloc, list_append, bind, load_list, store_list in E.
    simpl in E.
    destruct (list_at _ _); simpl in E.
    + destruct (list_at _ _); injection E as <- <-; simpl;
        rewrite ?lookup_insert_ne by congruence; easy.
    + injection E as <- <-. simpl. rewrite lookup_insert_ne by congruence. easy.
  - pose proof Hts as Hc. unfold tasks, contents in Hc.
    destruct (remove_task name st) as [out st'] eqn:E. simpl.
    unfold remove_task, bind at 1, bind at 1, get_tasks, load_list in E.
    destruct (list_at (heap st) (_tasks st)) as [cells|]; [|easy].
    destruct (keep_others_spec name st cells ts Hc) as (kept & Hk & _).
    unfold bind in E. rewrite Hk in E. unfold alloc, set_tasks in E.
    injection E as <- <-. simpl.
    rewrite lookup_insert_ne by congruence. easy.
  - now rewrite (has_conflict_spec _ _ _ _ Hts).
Qed.

Lemma exec_defined st ts op :
  tasks st = Some ts → ∃ ts', tasks (exec st op) = Some ts'.
Proof.
  intros Hts. destruct (run_keeps (λ _, True) [op] st ts) as (ts' & Hts' & _);
    [easy | easy | exact Hts | exact I |]. now exists ts'.
Qed.

Lemma run_frame ops st ts p o :
  tasks st = Some ts →
  heap st !! p = Some o → p ≠ _tasks st →
  heap (run ops st) !! p = Some o.
Proof.
  revert st ts. induction ops as [|op ops IH]; intros st ts Hts Hp Hne; simpl; [easy|].
  destruct (exec_frame st ts op p o Hts Hp Hne) as [Hp' Hne'].
  destruct (exec_defined st ts op Hts) as (ts' & Hts').
  exact (IH _ ts' Hts' Hp' Hne').
Qed.

Lemma run_task_frame ops st ts p t :
  tasks st = Some ts →
  task_at (heap st) p = Some t →
  task_at (heap (run ops st)) p = Some t.
Proof.
  intros Hts Hp. unfold task_at in *.
  destruct (heap st !! p) as [[t'|]|] eqn:Hl; [|easy|easy].
  injection Hp as ->.
  rewrite (run_frame ops st ts p (OTask t) Hts Hl); [reflexivity|].
  intros ->. unfold tasks, contents, list_at in Hts. now rewrite Hl in Hts.
Qed.
End writes.

(** X11. No call of [add_task], [remove_task] or [has_conflict] writes an
    object that exists other than the registry's own list: such an object
    is the same after any sequence of calls; in particular no [Task] object
    is ever modified. *)
Theorem scheduler_writes_own_list_only st ts ops p :
  tasks st = Some ts →
  (∀ o, heap st !! p = Some o → p ≠ _tasks st →
        heap (run ops st) !! p = Some o)
  ∧ (∀ t, task_at (heap st) p = Some t →
          task_at (heap (run ops st)) p = Some t).
Proof.
  intros Hts. split.
  - intros o Hp Hne. exact (run_frame ops st ts p o Hts Hp Hne).
  - intros t Hp. exact (run_task_frame ops st ts p t Hts Hp).
Qed.

Lemma scheduler_writes_own_list_only_witness :
  (∀ o, heap morning !! 2%positive = Some o → 2%positive ≠ _tasks morning →
        heap (run [Remove "Standup"; Add "Standup" 500 520] morning) !! 2%positive
        = Some o)
  ∧ (∀ t, task_at (heap morning) 2%positive = Some t →
          task_at (heap (run [Remove "Standup"; Add "Standup" 500 520] morning))
                  2%positive = Some t).
Proof.
  apply (scheduler_writes_own_list_only morning [standup; review]).
  vm_compute. reflexivity.
Defined.

(** X12. A list returned by [list_tasks] is a lasting snapshot: after any
    later calls of [add_task], [remove_task] and [has_conflict] it still holds
    the tasks the registry held when it was returned. *)
Theorem list_tasks_snapshot_lasts st ts r st1 ops :
  tasks st = Some ts →
  list_tasks st = (Return r, st1) →
  contents (heap (run ops st1)) r = Some ts.
Proof.
  intros Hts Hcall.
  destruct (list_tasks_spec st ts Hts) as (cells & r' & Hcells & Hnew & Hspec).
  rewrite Hcall in Hspec. injection Hspec as -> ->.
  assert (Hne : r' ≠ _tasks st).
  { intros ->. unfold list_at in Hcells. now rewrite Hnew in Hcells. }
  assert (Hrt : task_at (heap st) r' = None).
  { unfold task_at. now rewrite Hnew. }
  set (st1 := State (<[r' := OList cells]> (heap st)) (_tasks st)).
  assert (Hts1 : tasks st1 = Some ts) by now apply tasks_insert_other.
  assert (Hown : tasks_at (heap st1) cells = Some ts).
  { unfold tasks, contents in Hts. rewrite Hcells in Hts.
    now apply tasks_at_insert. }
  unfold contents, list_at.
  rewrite (run_frame ops st1 ts r' (OList cells) Hts1);
    [| apply lookup_insert_eq | exact Hne].
  apply (tasks_at_mono (heap st1)); [|exact Hown].
  intros p t. exact (run_task_frame ops st1 ts p t Hts1).
Qed.

Lemma list_tasks_snapshot_lasts_witness :
  contents
    (heap (run [Remove "Standup"; Add "Lunch" 720 780; Remove "Review"]
               (snd (list_tasks morning))))
    (fresh (dom (heap morning)))
  = Some [standup; review].
Proof.
  apply (list_tasks_snapshot_lasts morning [standup; review]).
  - vm_compute. reflexivity.
  - vm_compute. reflexivity.
Defined.

(** ** The tests and the script *)





Section script_properties.
Variable fromisoformat : string → iso.
Variable str : Z → string.
Implicit Types (args : Args.t) (h : gmap loc obj).

(** X15. The [list] command prints nothing and ends normally, whatever the
    other arguments: the scheduler it lists is the one the process has just
    created. *)
Theorem main_list_prints_nothing args h :
  Args.command args = "list"%string →
  main fromisoformat str args h = ([], Finished).
Proof.
  intros Hcmd. unfold main. rewrite Hcmd. simpl.
  destruct (list_tasks_spec (init h) [] (tasks_init h))
    as (cells & r & Hcells & Hnew & Hlist).
  unfold bind at 1. rewrite Hlist. unfold bind at 1, load_list. simpl.
  rewrite list_at_insert.
  unfold init in Hcells. simpl in Hcells. rewrite list_at_insert in Hcells.
  injection Hcells as <-. reflexivity.
Qed.

(** X16. The [remove] command, given a name that is not empty, prints
    [Task removed] and ends normally whatever the name; without a name, or
    with the empty one, it ends by the usage error. *)
Theorem main_remove args h :
  Args.command args = "remove"%string →
  main fromisoformat str args h
  = if truthy (Args.name args)
    then (["Task removed"%string], Finished)
    else ([], UsageError "remove requires task name").
Proof.
  intros Hcmd. unfold main. rewrite Hcmd. simpl.
  destruct (Args.name args) as [name|]; simpl; [|reflexivity].
  destruct (negb (bool_decide (name = ""%string))); simpl; [|reflexivity].
  destruct (remove_task_spec name (init h) [] (tasks_init h)) as (st & -> & _).
  reflexivity.
Qed.

(** X17. The [add] command ends by the usage error, before it reads any
    date, as soon as one of name, start and end is absent or empty. *)
Theorem main_add_usage args h :
  Args.command args = "add"%string →
  truthy (Args.name args) && truthy (Args.start args) && truthy (Args.end_ args)
  = false →
  main fromisoformat str args h
  = ([], UsageError "add requires name, start and end").
Proof.
  intros Hcmd Hmiss. unfold main. rewrite Hcmd. simpl. now rewrite Hmiss.
Qed.

(** X18. The [add] command, given a name and two dates that are read as
    datetimes of one kind, prints [Task added] when the end is after the
    start and otherwise ends by the duration error; it never ends by the
    conflict error, the scheduler being new in every process. *)
Theorem main_add args h name start end_ s e :
  Args.command args = "add"%string →
  Args.name args = Some name → name ≠ ""%string →
  Args.start args = Some start → start ≠ ""%string →
  Args.end_ args = Some end_ → end_ ≠ ""%string →
  (fromisoformat start = Naive s ∧ fromisoformat end_ = Naive e)
  ∨ (fromisoformat start = Aware s ∧ fromisoformat end_ = Aware e) →
  main fromisoformat str args h
  = if s <? e
    then (["Task added"%string], Finished)
    else ([], Uncaught (ValueError msg_duration)).
Proof.
  intros Hcmd Hn Hn' Hs Hs' He He' Hiso. unfold main. rewrite Hcmd, Hn, Hs, He.
  simpl. rewrite !bool_decide_eq_false_2 by assumption. simpl.
  destruct (add_task_spec name s e (init h) [] (tasks_init h)) as (st & Hadd & _).
  simpl in Hadd.
  assert (Hres : add_task name s e (init h)
                 = if s <? e then (Return tt, st)
                   else (Raise (ValueError msg_duration), init h)).
  { rewrite Hadd. destruct (Z.leb_spec e s), (Z.ltb_spec s e); (lia || reflexivity). }
  destruct Hiso as [[-> ->]|[-> ->]]; rewrite Hres; now destruct (s <? e).
Qed.
End script_properties.

Lemma main_list_prints_nothing_witness :
  main read_minutes (λ _, ""%string)
       (Args.mk "list" (Some "Standup"%string) None None) ∅
  = ([], Finished).
Proof.
  apply (main_list_prints_nothing read_minutes (λ _, ""%string)
           (Args.mk "list" (Some "Standup"%string) None None) ∅).
  reflexivity.
Defined.

Lemma main_remove_witness :
  main read_minutes (λ _, ""%string)
       (Args.mk "remove" (Some "Standup"%string) None None) ∅
  = if truthy (Some "Standup"%string)
    then (["Task removed"%string], Finished)
    else ([], UsageError "remove requires task name").
Proof.
  apply (main_remove read_minutes (λ _, ""%string)
           (Args.mk "remove" (Some "Standup"%string) None None) ∅).
  reflexivity.
Defined.

Lemma main_add_usage_witness :
  main read_minutes (λ _, ""%string)
       (Args.mk "add" (Some "Standup"%string) (Some "yesterday"%string) None) ∅
  = ([], UsageError "add requires name, start and end").
Proof.
  apply (main_add_usage read_minutes (λ _, ""%string)
           (Args.mk "add" (Some "Standup"%string) (Some "yesterday"%string) None) ∅).
  - reflexivity.
  - vm_compute. reflexivity.
Defined.

Lemma main_add_witness :
  main read_minutes (λ _, ""%string)
       (Args.mk "add" (Some "Standup"%string) (Some "2024-05-01T09:00"%string)
                (Some "2024-05-01T09:15"%string)) ∅
  = if 540 <? 555
    then (["Task added"%string], Finished)
    else ([], Uncaught (ValueError msg_duration)).
Proof.
  apply (main_add read_minutes (λ _, ""%string)
           (Args.mk "add" (Some "Standup"%string) (Some "2024-05-01T09:00"%string)
                    (Some "2024-05-01T09:15"%string)) ∅
           "Standup" "2024-05-01T09:00" "2024-05-01T09:15" 540 555).
  - reflexivity.
  - reflexivity.
  - discriminate.
  - reflexivity.
  - discriminate.
  - reflexivity.
  - discriminate.
  - left. split; vm_compute; reflexivity.
Defined.
